(** * query-exporter database wrapper ([src/db.py])

    A shallow embedding of the query definition, the mapping of result sets
    to metric results, and the connection life cycle of [DataBase], followed
    by the properties of the specification that hold of them.

    Conventions of the embedding.
    - A Python value that the code only moves around (a result cell, a bound
      parameter, a latency or a timeout) is an element of a type parameter:
      [Any] for cells and parameter values, [Num] for [Union[int, float]].
    - [dict] is [gmap], [set]/[frozenset] is [gset], [list] and [tuple] are
      [list]; an optional argument is an [option].
    - A call either returns or raises: [outcome A].
    - What belongs to other packages (sqlalchemy's [text(..).compile().params],
      [croniter.is_valid], the engine and its connections) is a parameter of
      the definitions that call it. *)

From Stdlib Require Import ZArith String Ascii.
From Stdlib Require QArith_base.
From stdpp Require Import base strings gmap sets list list_monad sorting pretty.

(** ** Exceptions *)

(** The exception classes of the module that the embedded functions raise,
    each with the arguments of its [__init__].  [KeyError] is the builtin a
    failed [dict] subscript raises.  [Foreign] and [ForeignBase] are
    exceptions that come out of a call on the database library, of which the
    code reads the class name: [Foreign] when the class derives from
    [Exception], [ForeignBase] when it derives from [BaseException] only
    ([asyncio.CancelledError], [KeyboardInterrupt], [SystemExit]). *)
Inductive exn : Type :=
  | DataBaseConnectError (message : string) (fatal : bool)
  | InvalidResultCount (expected got : nat)
  | InvalidResultColumnNames (expected got : list string)
  | InvalidQueryParameters (query_name : string)
  | InvalidQuerySchedule (query_name message : string)
  | KeyError (key : string)
  | Foreign (class_name : string)
  | ForeignBase (class_name : string).

Global Instance exn_eq_dec : EqDecision exn.
Proof. solve_decision. Defined.

(** [isinstance(e, Exception)]: what an [except Exception] clause catches. *)
Definition isinstance_Exception (e : exn) : bool :=
  match e with
  | ForeignBase _ => false
  | _ => true
  end.

(** [FATAL_ERRORS = (InvalidResultCount, InvalidResultColumnNames)] *)
Definition FATAL_ERRORS (e : exn) : bool :=
  match e with
  | InvalidResultCount _ _ | InvalidResultColumnNames _ _ => true
  | _ => false
  end.

Definition dquote : string := String (ascii_of_nat 34) EmptyString.

(** The text each [__init__] hands to [Exception.__init__]. *)
Definition InvalidResultCount_message (expected got : nat) : string :=
  "Wrong result count from query: expected " +:+ pretty expected
    +:+ ", got " +:+ pretty got.

(** [InvalidResultColumnNames._names] *)
Definition _names (names : list string) : string :=
  "(" +:+ String.concat ", " names +:+ ")".

Definition InvalidResultColumnNames_message (expected got : list string) : string :=
  "Wrong column names from query: expected " +:+ _names expected
    +:+ ", got " +:+ _names got.

Definition InvalidQueryParameters_message (query_name : string) : string :=
  "Parameters for query '" +:+ query_name +:+ "' don't match those from SQL".

Definition InvalidQuerySchedule_message (query_name message : string) : string :=
  "Invalid schedule for query " +:+ dquote +:+ query_name +:+ dquote
    +:+ ": " +:+ message.

(** ** Calls that return or raise *)

Inductive outcome (A : Type) : Type :=
  | Ok (a : A)
  | Raise (e : exn).
Arguments Ok {A} a.
Arguments Raise {A} e.

Global Instance outcome_ret : MRet outcome := λ A a, Ok a.
Global Instance outcome_bind : MBind outcome := λ A B f m,
  match m with
  | Ok a => f a
  | Raise e => Raise e
  end.

(** ** Python builtins used by the code *)

(** [sorted] on strings: Python orders [str] by code point, which on the
    UTF-8 bytes of a Rocq [string] is the lexicographic order [String.le]. *)
Definition sorted (l : list string) : list string := merge_sort String.le l.

(** [dict(pairs)] and a dict comprehension: entries are stored in iteration
    order, so the last entry of a repeated key is the one kept. *)
Definition dict {V : Type} (pairs : list (string * V)) : gmap string V :=
  foldl (λ d kv, <[kv.1 := kv.2]> d) ∅ pairs.

(** [d[key]] *)
Definition getitem {V : Type} (d : gmap string V) (key : string) : outcome V :=
  match d !! key with
  | Some v => Ok v
  | None => Raise (KeyError key)
  end.

(** Truth value of an optional [int] and of an optional [str]. *)
Definition truthy_int (x : option Z) : bool :=
  match x with
  | Some i => negb (i =? 0)%Z
  | None => false
  end.

Definition truthy_str (x : option string) : bool :=
  match x with
  | Some s => negb (String.eqb s EmptyString)
  | None => false
  end.

(** ** Named tuples *)

Module QueryMetric.
Record t : Type := mk { name : string; labels : list string }.
End QueryMetric.

Module QueryResults.
(** [latency] defaults to [None]. *)
Record t (Any Num : Type) : Type :=
  mk { keys : list string; rows : list (list Any); latency : option Num }.
Arguments mk {Any Num} keys rows latency.
Arguments keys {Any Num} _.
Arguments rows {Any Num} _.
Arguments latency {Any Num} _.
End QueryResults.

Module MetricResult.
Record t (Any : Type) : Type :=
  mk { metric : string; value : Any; labels : gmap string Any }.
Arguments mk {Any} metric value labels.
Arguments metric {Any} _.
Arguments value {Any} _.
Arguments labels {Any} _.
End MetricResult.

Module MetricResults.
(** [latency] defaults to [None]. *)
Record t (Any Num : Type) : Type :=
  mk { results : list (MetricResult.t Any); latency : option Num }.
Arguments mk {Any Num} results latency.
Arguments results {Any Num} _.
Arguments latency {Any Num} _.
End MetricResults.

(** ** [class Query] *)

Module Query.
Record t (Any Num : Type) : Type := mk {
  name : string;
  include_databases : string + list string;
  exclude_databases : list string;
  metrics : list QueryMetric.t;
  sql : string;
  parameters : gmap string Any;
  timeout : option Num;
  interval : option Z;
  schedule : option string;
}.
Arguments mk {Any Num}.
Arguments name {Any Num} _.
Arguments include_databases {Any Num} _.
Arguments exclude_databases {Any Num} _.
Arguments metrics {Any Num} _.
Arguments sql {Any Num} _.
Arguments parameters {Any Num} _.
Arguments timeout {Any Num} _.
Arguments interval {Any Num} _.
Arguments schedule {Any Num} _.

Section methods.
Context {Any Num : Type}.

(** [set(text(sql).compile().params)]: the placeholder names sqlalchemy
    finds in the SQL text. *)
Variable compile_params : string → gset string.
(** [croniter.is_valid] *)
Variable croniter_is_valid : string → bool.

Implicit Type self : t Any Num.

(** [bool(self.interval or self.schedule)] *)
Definition check_periodic self : bool :=
  truthy_int (interval self) || truthy_str (schedule self).

(** The [frozenset] of the chained [metric.labels] of [self.metrics]. *)
Definition labels self : gset string :=
  list_to_set (concat (QueryMetric.labels <$> metrics self)).

(** The set [set(metrics) | labels] of [results]. *)
Definition expected_columns self : gset string :=
  list_to_set (QueryMetric.name <$> metrics self) ∪ labels self.

(** One pass of the inner loop of [results]: the [MetricResult] of
    [metric] for the row whose cells are [values]. *)
Definition metric_result (values : gmap string Any) (metric : QueryMetric.t)
    : outcome (MetricResult.t Any) :=
  value ← getitem values (QueryMetric.name metric);
  labels ← mapM (λ label, cell ← getitem values label; mret (label, cell))
                (QueryMetric.labels metric);
  mret (MetricResult.mk (QueryMetric.name metric) value (dict labels)).

(** One pass of the outer loop: the results a row appends. *)
Definition row_results self (keys : list string) (row : list Any)
    : outcome (list (MetricResult.t Any)) :=
  let values := dict (zip keys row) in
  mapM (metric_result values) (metrics self).

Definition results self (query_results : QueryResults.t Any Num)
    : outcome (MetricResults.t Any Num) :=
  match QueryResults.rows query_results with
  | [] => mret (MetricResults.mk [] None)
  | _ :: _ =>
    let result_keys := sorted (QueryResults.keys query_results) in
    let expected_keys := sorted (elements (expected_columns self)) in
    if decide (length expected_keys ≠ length result_keys) then
      Raise (InvalidResultCount (length expected_keys) (length result_keys))
    else if decide (result_keys ≠ expected_keys) then
      Raise (InvalidResultColumnNames result_keys expected_keys)
    else
      per_row ← mapM (row_results self (QueryResults.keys query_results))
                     (QueryResults.rows query_results);
      mret (MetricResults.mk (concat per_row)
                             (QueryResults.latency query_results))
  end.

Definition _check_schedule self : outcome unit :=
  if truthy_int (interval self) && truthy_str (schedule self) then
    Raise (InvalidQuerySchedule (name self)
                                "both interval and schedule specified")
  else if truthy_str (schedule self)
          && negb (from_option croniter_is_valid true (schedule self)) then
    Raise (InvalidQuerySchedule (name self) "invalid schedule format")
  else mret ().

Definition _check_query_parameters self : outcome unit :=
  let query_params := compile_params (sql self) in
  if decide (dom (parameters self) ≠ query_params) then
    Raise (InvalidQueryParameters (name self))
  else mret ().

(** [Query.__init__]: the attributes are assigned, then the two checks
    run; the caller gets the object only when neither raises.
    [parameters or {}] turns an omitted argument into the empty dict. *)
Definition __init__ (name : string) (include_databases : string + list string)
    (exclude_databases : list string) (metrics : list QueryMetric.t)
    (sql : string) (parameters : option (gmap string Any))
    (timeout : option Num) (interval : option Z) (schedule : option string)
    : outcome (t Any Num) :=
  let self := mk name include_databases exclude_databases metrics sql
                 (default ∅ parameters) timeout interval schedule in
  _ ← _check_schedule self;
  _ ← _check_query_parameters self;
  mret self.
End methods.
End Query.

(** ** [class DataBase] *)

Module DataBase.
(** The calls the class makes on its collaborators: the engine, the
    connection it hands out, and the logger.  [conn_execute] is the call
    by which a statement is submitted on a connection; it is part of the
    interface of the connection, and no method of the class makes it. *)
Inductive call (Conn : Type) : Type :=
  | engine_connect
  | sync_detach (conn : Conn)
  | conn_close (conn : Conn)
  | conn_execute (conn : Conn) (statement : string)
  | logger_debug (msg : string).
Arguments engine_connect {Conn}.
Arguments sync_detach {Conn} conn.
Arguments conn_close {Conn} conn.
Arguments conn_execute {Conn} conn statement.
Arguments logger_debug {Conn} msg.

(** How the database library answers: each call moves the library to a new
    state and either returns or raises an exception. *)
Record library (Conn Engine : Type) : Type := {
  on_connect : Engine → Engine * (Conn + exn);
  on_detach : Conn → Engine → Engine * option exn;
  on_close : Conn → Engine → Engine * option exn;
}.
Arguments on_connect {Conn Engine} _ _.
Arguments on_detach {Conn Engine} _ _ _.
Arguments on_close {Conn Engine} _ _ _.

(** The attributes of the object the methods read or write.
    [_connect_lock] is left out: the methods are run one call after the
    other, each to completion, so the lock is free on entry and
    [async with] frees it on every exit. *)
Record t (Conn : Type) : Type := mk {
  config_name : string;
  _conn : option Conn;
  _pending_queries : Z;
}.
Arguments mk {Conn}.
Arguments config_name {Conn} _.
Arguments _conn {Conn} _.
Arguments _pending_queries {Conn} _.

(** The object, the state of the library, and the calls made so far
    (oldest first). *)
Record world (Conn Engine : Type) : Type := World {
  self : t Conn;
  engine : Engine;
  calls : list (call Conn);
}.
Arguments World {Conn Engine}.
Arguments self {Conn Engine} _.
Arguments engine {Conn Engine} _.
Arguments calls {Conn Engine} _.

(** What [__init__] leaves: the class attributes [_conn = None] and
    [_pending_queries = 0]. *)
Definition __init__ {Conn : Type} (config_name : string) : t Conn :=
  mk config_name None 0.

(** [error.__class__.__name__] *)
Definition class_name (e : exn) : string :=
  match e with
  | DataBaseConnectError _ _ => "DataBaseConnectError"
  | InvalidResultCount _ _ => "InvalidResultCount"
  | InvalidResultColumnNames _ _ => "InvalidResultColumnNames"
  | InvalidQueryParameters _ => "InvalidQueryParameters"
  | InvalidQuerySchedule _ _ => "InvalidQuerySchedule"
  | KeyError _ => "KeyError"
  | Foreign cls => cls
  | ForeignBase cls => cls
  end.

Section methods.
Context {Conn Engine : Type}.
Variable lib : library Conn Engine.

(** A method body: it runs in a world, returns or raises, and leaves a
    world; what it did before raising stays done. *)
Definition action (A : Type) : Type :=
  world Conn Engine → outcome A * world Conn Engine.

Definition ret {A} (a : A) : action A := λ w, (Ok a, w).
Definition raise {A} (e : exn) : action A := λ w, (Raise e, w).
Definition bind {A B} (m : action A) (k : A → action B) : action B :=
  λ w, match m w with
       | (Ok a, w') => k a w'
       | (Raise e, w') => (Raise e, w')
       end.
(** [try: m / except Exception as error: handler error]: an exception
    whose class does not derive from [Exception] is not caught. *)
Definition try_except {A} (m : action A) (handler : exn → action A)
    : action A :=
  λ w, match m w with
       | (Ok a, w') => (Ok a, w')
       | (Raise e, w') =>
           if isinstance_Exception e then handler e w' else (Raise e, w')
       end.

Notation "x <- m ;; k" := (bind m (λ x, k))
  (at level 100, m at next level, right associativity).
Notation "m ;; k" := (bind m (λ _, k))
  (at level 100, right associativity).

Definition get_self : action (t Conn) := λ w, (Ok (self w), w).
Definition set__conn (c : option Conn) : action unit :=
  λ w, (Ok (), World (mk (config_name (self w)) c (_pending_queries (self w)))
                     (engine w) (calls w)).
Definition set__pending_queries (n : Z) : action unit :=
  λ w, (Ok (), World (mk (config_name (self w)) (_conn (self w)) n)
                     (engine w) (calls w)).

(** The calls on the collaborators. *)
Definition do_engine_connect : action Conn :=
  λ w, let '(e', r) := on_connect lib (engine w) in
       let w' := World (self w) e' (calls w ++ [engine_connect]) in
       match r with
       | inl conn => (Ok conn, w')
       | inr e => (Raise e, w')
       end.
Definition do_sync_detach (conn : Conn) : action unit :=
  λ w, let '(e', r) := on_detach lib conn (engine w) in
       let w' := World (self w) e' (calls w ++ [sync_detach conn]) in
       match r with
       | None => (Ok (), w')
       | Some e => (Raise e, w')
       end.
Definition do_conn_close (conn : Conn) : action unit :=
  λ w, let '(e', r) := on_close lib conn (engine w) in
       let w' := World (self w) e' (calls w ++ [conn_close conn]) in
       match r with
       | None => (Ok (), w')
       | Some e => (Raise e, w')
       end.
Definition do_logger_debug (msg : string) : action unit :=
  λ w, (Ok (), World (self w) (engine w) (calls w ++ [logger_debug msg])).

(** The two debug lines, with [config.name] between double quotes. *)
Definition connected_msg (db : t Conn) : string :=
  "connected to database " +:+ dquote +:+ config_name db +:+ dquote.
Definition disconnected_msg (db : t Conn) : string :=
  "disconnected from database " +:+ dquote +:+ config_name db +:+ dquote.

(** [self._conn is not None] *)
Definition connected (db : t Conn) : bool :=
  match _conn db with
  | Some _ => true
  | None => false
  end.

Definition connect : action unit :=
  db <- get_self ;;
  if connected db then ret ()
  else
    conn <- try_except do_engine_connect
              (λ error, raise (DataBaseConnectError (class_name error) false)) ;;
    set__conn (Some conn) ;;
    do_logger_debug (connected_msg db).

Definition close : action unit :=
  db <- get_self ;;
  match _conn db with
  | None => ret ()
  | Some conn =>
    do_sync_detach conn ;;
    do_conn_close conn ;;
    set__conn None ;;
    set__pending_queries 0 ;;
    do_logger_debug (disconnected_msg db)
  end.

Definition execute : action unit :=
  connect.

Definition __aenter__ : action (t Conn) :=
  connect ;; get_self.

Definition __aexit__ : action unit :=
  close.

(** The three public operations, and running a sequence of them, each
    to completion, whether it returns or raises. *)
Inductive op : Type := Connect | Close | Execute.

Definition run_op (o : op) : action unit :=
  match o with
  | Connect => connect
  | Close => close
  | Execute => execute
  end.

Definition run_ops (os : list op) (w : world Conn Engine) : world Conn Engine :=
  foldl (λ w o, (run_op o w).2) w os.

(** How many times the engine was asked for a connection. *)
Definition is_engine_connect (c : call Conn) : bool :=
  match c with
  | engine_connect => true
  | _ => false
  end.
Definition is_conn_execute (c : call Conn) : bool :=
  match c with
  | conn_execute _ _ => true
  | _ => false
  end.
Definition connection_attempts (w : world Conn Engine) : nat :=
  length (filter (λ c, is_engine_connect c) (calls w)).
End methods.
End DataBase.

(** ** What the specification says of a metric result *)

(** [cell] is the cell of [row] under the column named [column]: the row's
    value at a position where [keys] holds that name. *)
Definition column_cell {Any : Type} (keys : list string) (row : list Any)
    (column : string) (cell : Any) : Prop :=
  ∃ i, keys !! i = Some column ∧ row !! i = Some cell.

(** [r] is the result the specification asks for [m] on [row]: it carries the
    name of [m], the cell under that name, and a label map whose keys are
    the declared labels of [m], each mapped to its cell of the row. *)
Definition metric_result_of {Any : Type} (keys : list string) (row : list Any)
    (m : QueryMetric.t) (r : MetricResult.t Any) : Prop :=
  MetricResult.metric r = QueryMetric.name m
  ∧ column_cell keys row (QueryMetric.name m) (MetricResult.value r)
  ∧ dom (MetricResult.labels r) = list_to_set (QueryMetric.labels m)
  ∧ ∀ label cell, MetricResult.labels r !! label = Some cell →
                  column_cell keys row label cell.

(** ** Data for the examples *)

(** A few Python values, enough for the rows of the examples. *)
Inductive cell : Type :=
  | Int (z : Z)
  | Str (s : string)
  | Null.

(** Latencies and timeouts of the examples are rationals such as 3/2. *)
Definition num : Type := QArith_base.Q.

Module Examples.
(** A query with the metrics [{"m1": ["l1"]}], built from its attributes. *)
Definition query (sql : string) (parameters : gmap string cell)
    (interval : option Z) (schedule : option string) : Query.t cell num :=
  Query.mk "q" (inr ["db"]) [] [QueryMetric.mk "m1" ["l1"]] sql parameters None
           interval schedule.

Definition m1_l1 : Query.t cell num := query "SELECT 1" ∅ None None.

Definition latency : option num := Some (QArith_base.Qmake 3 2).

(** The placeholders sqlalchemy finds in the two SQL texts of the examples:
    [:low] in the first, none in [SELECT 1]. *)
Definition compile_params (sql : string) : gset string :=
  if decide (sql = "SELECT x FROM t WHERE y > :low") then {["low"]} else ∅.

(** [croniter.is_valid] on the schedules of the examples: it accepts
    ["0 3 * * 1"] and rejects ["every day"]. *)
Definition croniter_is_valid (s : string) : bool :=
  bool_decide (s = "0 3 * * 1").

(** A library that hands out the connections 0, 1, 2, ... and never
    raises. *)
Definition accepting : DataBase.library nat nat :=
  {| DataBase.on_connect := λ n, (S n, inl n);
     DataBase.on_detach := λ _ n, (n, None);
     DataBase.on_close := λ _ n, (n, None) |}.

(** A library whose engine refuses every connection. *)
Definition refusing : DataBase.library nat nat :=
  {| DataBase.on_connect := λ n, (n, inr (Foreign "OperationalError"));
     DataBase.on_detach := λ _ n, (n, None);
     DataBase.on_close := λ _ n, (n, None) |}.

(** A library on which the request for a connection is cancelled: the
    [await] raises [asyncio.CancelledError]. *)
Definition cancelled : DataBase.library nat nat :=
  {| DataBase.on_connect := λ n, (n, inr (ForeignBase "CancelledError"));
     DataBase.on_detach := λ _ n, (n, None);
     DataBase.on_close := λ _ n, (n, None) |}.

(** A library that connects, and whose connections raise when detached. *)
Definition detach_raises : DataBase.library nat nat :=
  {| DataBase.on_connect := λ n, (S n, inl n);
     DataBase.on_detach := λ _ n, (n, Some (Foreign "InvalidRequestError"));
     DataBase.on_close := λ _ n, (n, None) |}.

(** A manager fresh from [__init__], facing a library in its first state
    with no call made yet. *)
Definition fresh : DataBase.world nat nat :=
  DataBase.World (DataBase.__init__ "db") 0 [].
End Examples.

(** ** Orders of calls on the library *)

(** In a list of calls, every [conn.close()] comes right after the
    [detach()] of the same connection. *)
Definition closes_follow_detach {Conn : Type} (cs : list (DataBase.call Conn))
    : Prop :=
  ∀ i conn, cs !! i = Some (DataBase.conn_close conn) →
    ∃ j, i = S j ∧ cs !! j = Some (DataBase.sync_detach conn).

(** * Properties *)

Section outcome_lemmas.
Context {A B : Type}.
Implicit Types (f : A → outcome B) (l : list A).

Lemma mapM_Ok_Forall2 f (P : A → B → Prop) l :
  Forall (λ x, ∃ y, f x = Ok y ∧ P x y) l →
  ∃ ys, mapM f l = Ok ys ∧ Forall2 P l ys.
Proof.
  induction 1 as [|x l (y & Hy & HP) _ (ys & Hys & IH)]; simpl.
  - exists []. split; [done|constructor].
  - exists (y :: ys). rewrite Hy; simpl. rewrite Hys; simpl.
    split; [done|by constructor].
Qed.

Lemma mapM_Raise f l e :
  mapM f l = Raise e → ∃ x, x ∈ l ∧ f x = Raise e.
Proof.
  induction l as [|x l IH]; simpl; [done|].
  destruct (f x) as [y|e'] eqn:Hx; simpl.
  - destruct (mapM f l) as [ys|e''] eqn:Hl; simpl; [done|].
    intros [= ->]. destruct (IH eq_refl) as (x' & ? & ?).
    exists x'. split; [by right|done].
  - intros [= ->]. exists x. split; [by left|done].
Qed.
End outcome_lemmas.

Section dict_lemmas.
Context {V : Type}.
Implicit Types (pairs : list (string * V)) (d : gmap string V).

Lemma dict_snoc pairs k v : dict (pairs ++ [(k, v)]) = <[k := v]> (dict pairs).
Proof. unfold dict. by rewrite foldl_app. Qed.

Lemma dict_list_to_map pairs : dict pairs = list_to_map (reverse pairs).
Proof.
  induction pairs as [|[k v] pairs IH] using rev_ind; [done|].
  by rewrite dict_snoc, reverse_snoc, list_to_map_cons, IH.
Qed.

Lemma dict_lookup_elem_of pairs k v : dict pairs !! k = Some v → (k, v) ∈ pairs.
Proof.
  rewrite dict_list_to_map. intros H%elem_of_list_to_map_2.
  by rewrite elem_of_reverse in H.
Qed.

Lemma dom_dict pairs : dom (dict pairs) = list_to_set pairs.*1.
Proof.
  rewrite dict_list_to_map, dom_list_to_map_L, fmap_reverse.
  apply set_eq. intros k. rewrite !elem_of_list_to_set. apply elem_of_reverse.
Qed.

Lemma dict_zip_lookup (keys : list string) (row : list V) i c v :
  NoDup keys → length keys ≤ length row →
  keys !! i = Some c → row !! i = Some v →
  dict (zip keys row) !! c = Some v.
Proof.
  intros Hnd Hlen Hk Hr. rewrite dict_list_to_map.
  apply elem_of_list_to_map_1.
  - by rewrite fmap_reverse, fst_zip, reverse_Permutation by lia.
  - apply elem_of_reverse, list_elem_of_lookup. exists i.
    apply lookup_zip_with_Some. eauto.
Qed.
End dict_lemmas.

Section results_lemmas.
Context {Any Num : Type}.
Implicit Types (self : Query.t Any Num) (qr : QueryResults.t Any Num).

Lemma length_sorted l : length (sorted l) = length l.
Proof. unfold sorted. by rewrite merge_sort_Permutation. Qed.

Lemma sorted_Permutation l : sorted l ≡ₚ l.
Proof. apply merge_sort_Permutation. Qed.

Lemma length_expected_keys self :
  length (sorted (elements (Query.expected_columns self)))
  = size (Query.expected_columns self).
Proof. by rewrite length_sorted. Qed.

(** The three ways out of the shape checks of [results]. *)
Lemma results_no_rows self keys latency :
  Query.results self (QueryResults.mk keys [] latency)
  = Ok (MetricResults.mk [] None).
Proof. reflexivity. Qed.

Lemma results_wrong_names self qr :
  QueryResults.rows qr ≠ [] →
  size (Query.expected_columns self) = length (QueryResults.keys qr) →
  sorted (QueryResults.keys qr) ≠ sorted (elements (Query.expected_columns self)) →
  Query.results self qr
  = Raise (InvalidResultColumnNames
             (sorted (QueryResults.keys qr))
             (sorted (elements (Query.expected_columns self)))).
Proof.
  intros Hrows Hlen Hne. unfold Query.results.
  destruct (QueryResults.rows qr); [done|].
  rewrite length_expected_keys, length_sorted.
  rewrite decide_False by (intros ?; done). by rewrite decide_True.
Qed.

Lemma results_checked self qr :
  QueryResults.rows qr ≠ [] →
  sorted (QueryResults.keys qr) = sorted (elements (Query.expected_columns self)) →
  Query.results self qr
  = (per_row ← mapM (Query.row_results self (QueryResults.keys qr))
                    (QueryResults.rows qr);
     mret (MetricResults.mk (concat per_row) (QueryResults.latency qr))).
Proof.
  intros Hrows Heq. unfold Query.results.
  destruct (QueryResults.rows qr) eqn:Hr; [done|].
  rewrite <- Heq. rewrite decide_False by (intros ?; done).
  by rewrite decide_False by (intros ?; done).
Qed.

(** When the name check passes, the columns are the expected ones, each
    once. *)
Lemma checked_keys self (keys : list string) :
  sorted keys = sorted (elements (Query.expected_columns self)) →
  NoDup keys ∧ ∀ c, c ∈ Query.expected_columns self → c ∈ keys.
Proof.
  intros Heq.
  assert (keys ≡ₚ elements (Query.expected_columns self)) as Hp.
  { by rewrite <- (sorted_Permutation keys), Heq, sorted_Permutation. }
  split.
  - rewrite Hp. apply NoDup_elements.
  - intros c Hc. rewrite Hp. by apply elem_of_elements.
Qed.

Lemma metric_name_expected self m :
  m ∈ Query.metrics self → QueryMetric.name m ∈ Query.expected_columns self.
Proof.
  intros Hm. unfold Query.expected_columns.
  apply elem_of_union_l, elem_of_list_to_set, list_elem_of_fmap. eauto.
Qed.

Lemma metric_label_expected self m l :
  m ∈ Query.metrics self → l ∈ QueryMetric.labels m →
  l ∈ Query.expected_columns self.
Proof.
  intros Hm Hl. unfold Query.expected_columns, Query.labels.
  apply elem_of_union_r, elem_of_list_to_set.
  apply list_elem_of_In, in_concat. exists (QueryMetric.labels m).
  split; apply list_elem_of_In; [|done].
  apply list_elem_of_fmap. eauto.
Qed.
End results_lemmas.

Section rows_lemmas.
Context {Any Num : Type}.
Implicit Types (self : Query.t Any Num) (qr : QueryResults.t Any Num).
Implicit Types (keys : list string) (row : list Any).

Lemma getitem_zip keys row c :
  NoDup keys → length keys ≤ length row → c ∈ keys →
  ∃ v, getitem (dict (zip keys row)) c = Ok v ∧ column_cell keys row c v.
Proof.
  intros Hnd Hlen [i Hi]%list_elem_of_lookup.
  destruct (lookup_lt_is_Some_2 row i) as [v Hv].
  { apply lookup_lt_Some in Hi. lia. }
  exists v. split; [|by exists i].
  unfold getitem. by erewrite dict_zip_lookup.
Qed.

Lemma metric_result_Ok keys row m :
  NoDup keys → length keys ≤ length row →
  QueryMetric.name m ∈ keys →
  (∀ l, l ∈ QueryMetric.labels m → l ∈ keys) →
  ∃ r, Query.metric_result (dict (zip keys row)) m = Ok r
       ∧ metric_result_of keys row m r.
Proof.
  intros Hnd Hlen Hname Hlabels. unfold Query.metric_result.
  destruct (getitem_zip keys row _ Hnd Hlen Hname) as (v & -> & Hv); simpl.
  edestruct (mapM_Ok_Forall2
    (λ label, cell ← getitem (dict (zip keys row)) label; mret (label, cell))
    (λ label (p : string * Any), p.1 = label ∧ column_cell keys row label p.2)
    (QueryMetric.labels m)) as (ps & -> & Hps).
  { apply Forall_forall. intros l Hl.
    destruct (getitem_zip keys row l Hnd Hlen (Hlabels l Hl)) as (c & -> & Hc).
    by exists (l, c). }
  simpl. eexists. split; [done|]. repeat split; simpl; [done|..].
  - rewrite dom_dict.
    assert (ps.*1 = QueryMetric.labels m) as ->; [|done].
    clear -Hps. induction Hps as [|l p ls ps [<- _] _ IH]; [done|].
    by rewrite fmap_cons, IH.
  - intros label cell Hin%dict_lookup_elem_of.
    clear -Hps Hin. induction Hps as [|l p ls ps [Hl Hc] _ IH].
    + by apply elem_of_nil in Hin.
    + apply elem_of_cons in Hin as [<-|Hin]; [|by apply IH].
      simpl in *. by subst.
Qed.

Lemma row_results_Ok self keys row :
  sorted keys = sorted (elements (Query.expected_columns self)) →
  length keys ≤ length row →
  ∃ rs, Query.row_results self keys row = Ok rs
        ∧ Forall2 (metric_result_of keys row) (Query.metrics self) rs.
Proof.
  intros [Hnd Hin]%checked_keys Hlen. unfold Query.row_results.
  apply mapM_Ok_Forall2, Forall_forall. intros m Hm.
  apply metric_result_Ok; [done..| |].
  - by apply Hin, metric_name_expected.
  - intros l Hl. by eapply Hin, metric_label_expected.
Qed.

Lemma length_concat_same {A} (ls : list (list A)) n :
  Forall (λ l, length l = n) ls → length (concat ls) = length ls * n.
Proof.
  induction 1 as [|l ls Hl _ IH]; simpl; [done|].
  rewrite length_app, IH, Hl. lia.
Qed.
End rows_lemmas.

Section raise_lemmas.
Context {Any Num : Type}.
Implicit Types (self : Query.t Any Num) (qr : QueryResults.t Any Num).

Lemma getitem_Raise (d : gmap string Any) k e :
  getitem d k = Raise e → e = KeyError k.
Proof. unfold getitem. destruct (d !! k); congruence. Qed.

Lemma metric_result_Raise (values : gmap string Any) m e :
  Query.metric_result values m = Raise e → ∃ k, e = KeyError k.
Proof.
  unfold Query.metric_result.
  destruct (getitem values (QueryMetric.name m)) as [v|e'] eqn:Hv; simpl.
  - destruct (mapM _ _) as [ps|e'] eqn:Hps; simpl; [done|].
    intros [= ->]. apply mapM_Raise in Hps as (l & _ & Hl).
    destruct (getitem values l) eqn:Hg; simpl in Hl; [done|].
    injection Hl as ->. apply getitem_Raise in Hg. eauto.
  - intros [= ->]. apply getitem_Raise in Hv. eauto.
Qed.

Lemma results_Raise self qr e :
  Query.results self qr = Raise e →
  (∃ expected got, e = InvalidResultCount expected got)
  ∨ (∃ expected got, e = InvalidResultColumnNames expected got)
  ∨ (∃ k, e = KeyError k).
Proof.
  unfold Query.results. destruct (QueryResults.rows qr) as [|row rows]; [done|].
  repeat case_decide.
  - intros [= <-]. left. eauto.
  - intros [= <-]. right. left. eauto.
  - destruct (mapM _ _) as [per_row|e'] eqn:Hrows; simpl; [done|].
    intros [= ->]. right. right.
    apply mapM_Raise in Hrows as (r & _ & Hr).
    apply mapM_Raise in Hr as (m & _ & Hm).
    by eapply metric_result_Raise.
Qed.
End raise_lemmas.

Section construction.
Context {Any Num : Type}.
Variable compile_params : string → gset string.
Variable croniter_is_valid : string → bool.
Implicit Types (self : Query.t Any Num).

Lemma check_query_parameters_iff self :
  Query._check_query_parameters compile_params self = Ok ()
  ↔ dom (Query.parameters self) = compile_params (Query.sql self).
Proof.
  unfold Query._check_query_parameters. case_decide as H.
  - split; [done|]. intros ?. by destruct H.
  - split; [|done]. intros _.
    destruct (decide (dom (Query.parameters self)
                      = compile_params (Query.sql self))); [done|by destruct H].
Qed.

Lemma check_schedule_Raise self e :
  Query._check_schedule croniter_is_valid self = Raise e →
  ∃ msg, e = InvalidQuerySchedule (Query.name self) msg.
Proof.
  unfold Query._check_schedule.
  repeat (case_match; try done); intros [= <-]; eauto.
Qed.

Lemma check_schedule_unset self :
  truthy_str (Query.schedule self) = false →
  Query._check_schedule croniter_is_valid self = Ok ().
Proof.
  intros H. unfold Query._check_schedule. rewrite H.
  by rewrite andb_false_r.
Qed.
End construction.

Section database_lemmas.
Context {Conn Engine : Type}.
Variable lib : DataBase.library Conn Engine.
Implicit Types (w : DataBase.world Conn Engine).
Import DataBase.

Ltac run_method :=
  unfold connect, close, bind, ret, raise, try_except, get_self, set__conn,
    set__pending_queries, do_engine_connect, do_sync_detach, do_conn_close,
    do_logger_debug; cbn.

Lemma connect_connected w :
  connected (self w) = true → connect lib w = (Ok (), w).
Proof.
  intros H. run_method. rewrite H. by destruct w.
Qed.

Lemma connect_accepted w e' conn :
  connected (self w) = false →
  on_connect lib (engine w) = (e', inl conn) →
  connect lib w
  = (Ok (), World (mk (config_name (self w)) (Some conn)
                      (_pending_queries (self w)))
                  e' (calls w ++ [engine_connect; logger_debug (connected_msg (self w))])).
Proof.
  intros H Hlib. run_method. rewrite H, Hlib. cbn.
  by rewrite <- app_assoc.
Qed.

Lemma connect_refused w e' e :
  connected (self w) = false →
  on_connect lib (engine w) = (e', inr e) →
  connect lib w
  = (Raise (if isinstance_Exception e
            then DataBaseConnectError (class_name e) false else e),
     World (self w) e' (calls w ++ [engine_connect])).
Proof.
  intros H Hlib. run_method. rewrite H, Hlib. cbn.
  by destruct (isinstance_Exception e).
Qed.

Lemma close_disconnected w :
  _conn (self w) = None → close lib w = (Ok (), w).
Proof. intros H. run_method. rewrite H. by destruct w. Qed.

Lemma close_released w conn e1 e2 :
  _conn (self w) = Some conn →
  on_detach lib conn (engine w) = (e1, None) →
  on_close lib conn e1 = (e2, None) →
  close lib w
  = (Ok (), World (mk (config_name (self w)) None 0) e2
                  (calls w ++ [sync_detach conn; conn_close conn;
                               logger_debug (disconnected_msg (self w))])).
Proof.
  intros H H1 H2. run_method. rewrite H, H1. cbn. rewrite H2. cbn.
  by rewrite <- !app_assoc.
Qed.

Lemma close_detach_raises w conn e1 e :
  _conn (self w) = Some conn →
  on_detach lib conn (engine w) = (e1, Some e) →
  close lib w
  = (Raise e, World (self w) e1 (calls w ++ [sync_detach conn])).
Proof.
  intros H H1. run_method. by rewrite H, H1.
Qed.

Lemma close_close_raises w conn e1 e2 e :
  _conn (self w) = Some conn →
  on_detach lib conn (engine w) = (e1, None) →
  on_close lib conn e1 = (e2, Some e) →
  close lib w
  = (Raise e,
     World (self w) e2 (calls w ++ [sync_detach conn; conn_close conn])).
Proof.
  intros H H1 H2. run_method. rewrite H, H1. cbn. rewrite H2. cbn.
  by rewrite <- !app_assoc.
Qed.

Lemma connection_attempts_app w (e : Engine) s new :
  connection_attempts (World s e (calls w ++ new))
  = connection_attempts w + length (filter (λ c, is_engine_connect c) new).
Proof. unfold connection_attempts. cbn. by rewrite filter_app, length_app. Qed.

(** What one call of [connect] does, whatever the library answers. *)
Lemma connect_cases w :
  (connected (self w) = true ∧ connect lib w = (Ok (), w))
  ∨ (connected (self w) = false
     ∧ ∃ e' conn, (connect lib w).1 = Ok ()
         ∧ (connect lib w).2
           = World (mk (config_name (self w)) (Some conn)
                       (_pending_queries (self w)))
                   e' (calls w ++ [engine_connect;
                                   logger_debug (connected_msg (self w))]))
  ∨ (connected (self w) = false
     ∧ ∃ e' e, on_connect lib (engine w) = (e', inr e)
         ∧ (connect lib w).1
           = Raise (if isinstance_Exception e
                    then DataBaseConnectError (class_name e) false else e)
         ∧ (connect lib w).2 = World (self w) e' (calls w ++ [engine_connect])).
Proof.
  destruct (connected (self w)) eqn:H.
  - left. split; [done|]. by apply connect_connected.
  - right. destruct (on_connect lib (engine w)) as [e' [conn|e]] eqn:Hlib.
    + left. split; [done|]. exists e', conn.
      by rewrite (connect_accepted w e' conn).
    + right. split; [done|]. exists e', e.
      by rewrite (connect_refused w e' e).
Qed.

Lemma close_cases w :
  (_conn (self w) = None ∧ close lib w = (Ok (), w))
  ∨ (∃ conn e new, _conn (self w) = Some conn
       ∧ (close lib w).1 = Ok ()
       ∧ (close lib w).2 = World (mk (config_name (self w)) None 0) e
                                 (calls w ++ new))
  ∨ (∃ conn e new err, _conn (self w) = Some conn
       ∧ (close lib w).1 = Raise err
       ∧ (close lib w).2 = World (self w) e (calls w ++ new)).
Proof.
  destruct (_conn (self w)) as [conn|] eqn:H.
  - right.
    destruct (on_detach lib conn (engine w)) as [e1 [cls|]] eqn:H1.
    { right. exists conn, e1, [sync_detach conn], cls.
      by rewrite (close_detach_raises w conn e1 cls). }
    destruct (on_close lib conn e1) as [e2 [cls|]] eqn:H2.
    { right. exists conn, e2, [sync_detach conn; conn_close conn], cls.
      by rewrite (close_close_raises w conn e1 e2 cls). }
    left. eexists conn, e2, _.
    by rewrite (close_released w conn e1 e2).
  - left. split; [done|]. by apply close_disconnected.
Qed.

Lemma run_op_pending_queries o w :
  _pending_queries (self (run_op lib o w).2) = _pending_queries (self w)
  ∨ _pending_queries (self (run_op lib o w).2) = 0%Z.
Proof.
  destruct o; simpl; unfold execute.
  1,3: destruct (connect_cases w)
    as [[_ ->]|[(_ & ? & ? & _ & ->)|(_ & ? & ? & _ & _ & ->)]]; simpl; auto.
  destruct (close_cases w)
    as [[_ ->]|[(? & ? & ? & _ & _ & ->)|(? & ? & ? & ? & _ & _ & ->)]];
    simpl; auto.
Qed.

Lemma run_ops_snoc os o w :
  run_ops lib (os ++ [o]) w = (run_op lib o (run_ops lib os w)).2.
Proof. unfold run_ops. by rewrite foldl_app. Qed.
End database_lemmas.

(** ** The specification's properties of [Query.results] *)

(** C1. On a result set without rows [results] returns an empty result
    list, without looking at the columns; the latency of the result set is
    not carried over: the [MetricResults] is built with its default
    [latency = None].  Here the result set has the latency 3/2 and columns
    that match no schema check. *)
Theorem results_empty_rows_latency_dropped :
  let qr := QueryResults.mk ["unexpected"] [] Examples.latency in
  ∃ mr : MetricResults.t cell num,
    Query.results Examples.m1_l1 qr = Ok mr
    ∧ MetricResults.results mr = []
    ∧ MetricResults.latency mr = None
    ∧ MetricResults.latency mr ≠ QueryResults.latency qr.
Proof. eexists. repeat split; [reflexivity..|]. discriminate. Qed.

(** C2. With metrics [{"m1": ["l1"]}] and the columns [(m1, wrong_label)],
    [results] raises [InvalidResultColumnNames] with the sorted columns of the
    result set as its [expected] argument and the sorted expected names as its
    [got] argument, so that the message reads the wrong way round. *)
Theorem results_column_names_arguments :
  let self := Examples.m1_l1 in
  let qr := QueryResults.mk ["m1"; "wrong_label"] [[Int 42; Str "a"]] None in
  let result_keys := sorted (QueryResults.keys qr) in
  let expected_keys := sorted (elements (Query.expected_columns self)) in
  Query.results self qr
  = Raise (InvalidResultColumnNames result_keys expected_keys)
  ∧ result_keys = ["m1"; "wrong_label"]
  ∧ expected_keys = ["l1"; "m1"]
  ∧ InvalidResultColumnNames_message result_keys expected_keys
    = "Wrong column names from query: expected (m1, wrong_label), got (l1, m1)".
Proof. repeat split; vm_compute; reflexivity. Qed.

(** C3. On a result set with rows, when the number of distinct expected
    column names (metric names together with label names) differs from the
    number of columns of the result set, [results] raises
    [InvalidResultCount] with the expected count and the actual count,
    whatever the names are. *)
Theorem results_wrong_count {Any Num : Type} (self : Query.t Any Num)
    (qr : QueryResults.t Any Num) :
  QueryResults.rows qr ≠ [] →
  size (Query.expected_columns self) ≠ length (QueryResults.keys qr) →
  Query.results self qr
  = Raise (InvalidResultCount (size (Query.expected_columns self))
                              (length (QueryResults.keys qr))).
Proof.
  intros Hrows Hlen. unfold Query.results.
  destruct (QueryResults.rows qr); [done|].
  rewrite length_expected_keys, length_sorted. by rewrite decide_True.
Qed.

(** The example of the specification: metrics [{"m1": ["l1"]}] and the only
    column [(m1,)] give [InvalidResultCount] with expected 2 and got 1. *)
Lemma results_wrong_count_witness :
  Query.results Examples.m1_l1 (QueryResults.mk ["m1"] [[Int 42]] None)
  = Raise (InvalidResultCount 2 1).
Proof.
  apply (results_wrong_count Examples.m1_l1 (QueryResults.mk ["m1"] [[Int 42]] None)).
  - discriminate.
  - vm_compute. discriminate.
Defined.

(** C4, as the code has it.  On a result set with rows, each with at least
    as many cells as there are columns, whose sorted columns are the sorted
    expected names, [results] returns, row after row and for each declared
    metric in turn, one [MetricResult] with the metric's name, the cell under
    that name (found by pairing the columns, in the order of the result set,
    with the cells of the row) and the labels of the metric mapped to their
    cells; cells beyond the columns are left aside; with N metrics a row
    gives N results, and the latency is the one of the result set. *)
Theorem results_rows {Any Num : Type} (self : Query.t Any Num)
    (qr : QueryResults.t Any Num) :
  QueryResults.rows qr ≠ [] →
  sorted (QueryResults.keys qr) = sorted (elements (Query.expected_columns self)) →
  Forall (λ row, length (QueryResults.keys qr) ≤ length row) (QueryResults.rows qr) →
  ∃ per_row,
    Query.results self qr
    = Ok (MetricResults.mk (concat per_row) (QueryResults.latency qr))
    ∧ Forall2 (λ row rs, Forall2 (metric_result_of (QueryResults.keys qr) row)
                                 (Query.metrics self) rs)
              (QueryResults.rows qr) per_row
    ∧ length (concat per_row)
      = length (QueryResults.rows qr) * length (Query.metrics self).
Proof.
  intros Hrows Hnames Haligned. rewrite results_checked by done.
  edestruct (mapM_Ok_Forall2 (Query.row_results self (QueryResults.keys qr))
    (λ row rs, Forall2 (metric_result_of (QueryResults.keys qr) row)
                       (Query.metrics self) rs)
    (QueryResults.rows qr)) as (per_row & -> & Hper).
  { eapply Forall_impl; [exact Haligned|]. intros row Hlen.
    by apply row_results_Ok. }
  exists per_row. split; [done|]. split; [done|].
  rewrite (length_concat_same per_row (length (Query.metrics self))).
  - by rewrite (Forall2_length _ _ _ Hper).
  - clear -Hper. induction Hper as [|row rs rows per_row Hr _ IH]; constructor; [|done].
    symmetry. by eapply Forall2_length.
Qed.


(** The example of the specification: one row [(42, "a")] under the columns
    [(m1, l1)]. *)
Lemma results_rows_witness :
  let qr := QueryResults.mk ["m1"; "l1"] [[Int 42; Str "a"]] Examples.latency in
  ∃ per_row,
    Query.results Examples.m1_l1 qr
    = Ok (MetricResults.mk (concat per_row) Examples.latency)
    ∧ Forall2 (λ row rs, Forall2 (metric_result_of ["m1"; "l1"] row)
                                 (Query.metrics Examples.m1_l1) rs)
              [[Int 42; Str "a"]] per_row
    ∧ length (concat per_row) = 1 * 1.
Proof.
  apply (results_rows Examples.m1_l1
           (QueryResults.mk ["m1"; "l1"] [[Int 42; Str "a"]] Examples.latency)).
  - discriminate.
  - vm_compute. reflexivity.
  - repeat constructor.
Defined.

(** C4, as stated, fails: the columns [(m1, l1)] pass both shape checks,
    which look at the columns only, and the row [(42,)] has no cell for
    [l1]: [results] raises [KeyError]. *)
Lemma results_short_row :
  let self := Examples.m1_l1 in
  let qr := QueryResults.mk ["m1"; "l1"] [[Int 42]] Examples.latency in
  QueryResults.rows qr ≠ []
  ∧ size (Query.expected_columns self) = length (QueryResults.keys qr)
  ∧ sorted (QueryResults.keys qr)
    = sorted (elements (Query.expected_columns self))
  ∧ Query.results self qr = Raise (KeyError "l1").
Proof. repeat split; vm_compute; done. Qed.

(** A row with a cell to spare is mapped like the row without it. *)
Example results_spare_cell :
  Query.results Examples.m1_l1
    (QueryResults.mk ["m1"; "l1"] [[Int 42; Str "a"; Null]] Examples.latency)
  = Ok (MetricResults.mk [MetricResult.mk "m1" (Int 42) {["l1" := Str "a"]}]
                         Examples.latency).
Proof. vm_compute. reflexivity. Qed.

Example results_m1_l1 :
  Query.results Examples.m1_l1
    (QueryResults.mk ["m1"; "l1"] [[Int 42; Str "a"]] Examples.latency)
  = Ok (MetricResults.mk [MetricResult.mk "m1" (Int 42) {["l1" := Str "a"]}]
                         Examples.latency).
Proof. vm_compute. reflexivity. Qed.

(** ** The specification's properties of the construction of a [Query] *)

Lemma truthy_str_Some s : truthy_str (Some s) = true ↔ s ≠ EmptyString.
Proof.
  simpl. rewrite negb_true_iff. apply String.eqb_neq.
Qed.

Lemma truthy_int_Some i : truthy_int (Some i) = true ↔ i ≠ 0%Z.
Proof. simpl. rewrite negb_true_iff. apply Z.eqb_neq. Qed.

(** C5, as the code has it.  When the schedule check passes, [__init__]
    raises [InvalidQueryParameters] if the names of the parameters are not
    exactly the placeholders of the SQL text, and returns the query if they
    are; neither mapping results nor [DataBase.execute] ever raises
    [InvalidQueryParameters]. *)
Theorem init_parameters_checked {Any Num Conn Engine : Type}
    (compile_params : string → gset string) (croniter_is_valid : string → bool)
    name include_databases exclude_databases metrics sql
    (parameters : option (gmap string Any)) (timeout : option Num)
    interval schedule :
  let self := Query.mk name include_databases exclude_databases metrics sql
                       (default ∅ parameters) timeout interval schedule in
  let new := Query.__init__ compile_params croniter_is_valid name
               include_databases exclude_databases metrics sql parameters
               timeout interval schedule in
  Query._check_schedule croniter_is_valid self = Ok () →
  (dom (default ∅ parameters) ≠ compile_params sql →
   new = Raise (InvalidQueryParameters name))
  ∧ (dom (default ∅ parameters) = compile_params sql → new = Ok self)
  ∧ (∀ qr n, Query.results self qr ≠ Raise (InvalidQueryParameters n))
  ∧ (∀ (lib : DataBase.library Conn Engine) w n,
       (DataBase.execute lib w).1 ≠ Raise (InvalidQueryParameters n)).
Proof.
  intros self new Hschedule. subst new. unfold Query.__init__.
  fold self. rewrite Hschedule. simpl.
  unfold Query._check_query_parameters. simpl. repeat split.
  - intros Hne. by rewrite decide_True.
  - intros Heq. by rewrite decide_False by (intros ?; done).
  - intros qr n Hr. apply results_Raise in Hr.
    destruct Hr as [(? & ? & ?)|[(? & ? & ?)|(? & ?)]]; discriminate.
  - intros lib w n. unfold DataBase.execute.
    destruct (connect_cases lib w)
      as [[_ ->]|[(_ & ? & ? & -> & _)|(_ & ? & e & _ & -> & _)]];
      [discriminate..|].
    by destruct e.
Qed.

Lemma init_parameters_checked_witness :
  Query.__init__ Examples.compile_params Examples.croniter_is_valid
    "q" (inr ["db"]) [] [QueryMetric.mk "m1" ["l1"]]
    "SELECT x FROM t WHERE y > :low" (@None (gmap string cell)) (@None num)
    None (Some "0 3 * * 1")
  = Raise (InvalidQueryParameters "q")
  ∧ Query.__init__ Examples.compile_params Examples.croniter_is_valid
      "q" (inr ["db"]) [] [QueryMetric.mk "m1" ["l1"]]
      "SELECT x FROM t WHERE y > :low" (Some {["low" := Int 5]}) (@None num)
      None (Some "0 3 * * 1")
    = Ok (Examples.query "SELECT x FROM t WHERE y > :low" {["low" := Int 5]}
                         None (Some "0 3 * * 1")).
Proof.
  split.
  - apply (proj1 (init_parameters_checked (Conn:=nat) (Engine:=nat)
             Examples.compile_params Examples.croniter_is_valid
             "q" (inr ["db"]) [] [QueryMetric.mk "m1" ["l1"]]
             "SELECT x FROM t WHERE y > :low" (@None (gmap string cell)) (@None num)
             None (Some "0 3 * * 1") eq_refl)).
    vm_compute. discriminate.
  - exact (proj1 (proj2 (init_parameters_checked (Conn:=nat) (Engine:=nat)
             Examples.compile_params Examples.croniter_is_valid
             "q" (inr ["db"]) [] [QueryMetric.mk "m1" ["l1"]]
             "SELECT x FROM t WHERE y > :low" (Some {["low" := Int 5]}) (@None num)
             None (Some "0 3 * * 1") eq_refl)) eq_refl).
Defined.

(** C5, as stated, fails: with both an interval and a schedule, parameters
    that do not match the placeholders of [SELECT 1] (there are none) give
    [InvalidQuerySchedule], the schedule being checked first. *)
Lemma init_schedule_checked_first :
  let new : outcome (Query.t cell num) :=
    Query.__init__ Examples.compile_params Examples.croniter_is_valid
      "q" (inr ["db"]) [] [QueryMetric.mk "m1" ["l1"]]
      "SELECT 1" (Some {["low" := Int 5]}) None (Some 60%Z) (Some "0 3 * * 1") in
  dom ({["low" := Int 5]} : gmap string cell) ≠ Examples.compile_params "SELECT 1"
  ∧ new = Raise (InvalidQuerySchedule "q" "both interval and schedule specified")
  ∧ new ≠ Raise (InvalidQueryParameters "q").
Proof.
  repeat split.
  - vm_compute. discriminate.
  - discriminate.
Qed.

(** C6, as the code has it.  An interval and a schedule count as given when
    they are truthy: a non-zero integer, a non-empty string.  With both, the
    check raises [InvalidQuerySchedule]; with a non-empty schedule that is
    not a valid cron expression it raises [InvalidQuerySchedule]; with a
    valid cron schedule and no interval (or the interval 0) it passes. *)
Theorem check_schedule_truthy {Any Num : Type}
    (croniter_is_valid : string → bool) (self : Query.t Any Num) :
  (∀ i s, Query.interval self = Some i → i ≠ 0%Z →
          Query.schedule self = Some s → s ≠ EmptyString →
     Query._check_schedule croniter_is_valid self
     = Raise (InvalidQuerySchedule (Query.name self)
                                   "both interval and schedule specified"))
  ∧ (∀ s, Query.schedule self = Some s → s ≠ EmptyString →
          croniter_is_valid s = false →
     ∃ msg, Query._check_schedule croniter_is_valid self
            = Raise (InvalidQuerySchedule (Query.name self) msg))
  ∧ (∀ s, Query.schedule self = Some s → croniter_is_valid s = true →
          Query.interval self = None ∨ Query.interval self = Some 0%Z →
     Query._check_schedule croniter_is_valid self = Ok ()).
Proof.
  unfold Query._check_schedule. repeat split.
  - intros i s -> Hi%truthy_int_Some -> Hs%truthy_str_Some. by rewrite Hi, Hs.
  - intros s -> Hs%truthy_str_Some Hvalid. rewrite Hs. simpl. rewrite Hvalid.
    destruct (truthy_int _); simpl; eauto.
  - intros s -> Hvalid Hi.
    assert (truthy_int (Query.interval self) = false) as ->
      by (by destruct Hi as [-> | ->]).
    simpl. rewrite Hvalid. by rewrite andb_false_r.
Qed.

Lemma check_schedule_truthy_witness :
  Query._check_schedule Examples.croniter_is_valid
    (Examples.query "SELECT 1" ∅ (Some 60%Z) (Some "0 3 * * 1"))
  = Raise (InvalidQuerySchedule "q" "both interval and schedule specified")
  ∧ (∃ msg, Query._check_schedule Examples.croniter_is_valid
              (Examples.query "SELECT 1" ∅ None (Some "every day"))
            = Raise (InvalidQuerySchedule "q" msg))
  ∧ Query._check_schedule Examples.croniter_is_valid
      (Examples.query "SELECT 1" ∅ None (Some "0 3 * * 1"))
    = Ok ().
Proof.
  split; [|split].
  - apply (proj1 (check_schedule_truthy Examples.croniter_is_valid
                    (Examples.query "SELECT 1" ∅ (Some 60%Z) (Some "0 3 * * 1")))
             60%Z "0 3 * * 1"); [reflexivity|discriminate|reflexivity|discriminate].
  - apply (proj1 (proj2 (check_schedule_truthy Examples.croniter_is_valid
                    (Examples.query "SELECT 1" ∅ None (Some "every day"))))
             "every day"); [reflexivity|discriminate|reflexivity].
  - apply (proj2 (proj2 (check_schedule_truthy Examples.croniter_is_valid
                    (Examples.query "SELECT 1" ∅ None (Some "0 3 * * 1"))))
             "0 3 * * 1"); [reflexivity|reflexivity|by left].
Defined.

(** C6, as stated, fails: with the interval 60 and the empty string as
    schedule, both are set and the schedule is no cron expression, yet the
    check passes, whatever [croniter.is_valid] answers; so does the
    construction of the query, which then runs periodically. *)
Lemma check_schedule_empty_string :
  let self := Examples.query "SELECT 1" ∅ (Some 60%Z) (Some EmptyString) in
  Query.interval self ≠ None
  ∧ Query.schedule self ≠ None
  ∧ (∀ croniter_is_valid, Query._check_schedule croniter_is_valid self = Ok ())
  ∧ (∀ croniter_is_valid,
       Query.__init__ Examples.compile_params croniter_is_valid
         "q" (inr ["db"]) [] [QueryMetric.mk "m1" ["l1"]] "SELECT 1" None None
         (Some 60%Z) (Some EmptyString)
       = Ok self)
  ∧ Query.check_periodic self = true.
Proof. repeat split; discriminate. Qed.

(** ** The specification's properties of [DataBase] *)

Section database_claims.
Context {Conn Engine : Type}.
Variable lib : DataBase.library Conn Engine.
Implicit Types (w : DataBase.world Conn Engine).
Import DataBase.

(** C7, as the code has it.  On a disconnected manager, when the first
    [connect()] returns, a second [connect()] finds the manager connected
    and returns without a call to the engine or any other change: the two
    calls make one connection attempt. *)
Theorem connect_twice_one_attempt w w1 :
  connected (self w) = false →
  connect lib w = (Ok (), w1) →
  connect lib w1 = (Ok (), w1)
  ∧ connected (self w1) = true
  ∧ connection_attempts (connect lib w1).2 = S (connection_attempts w).
Proof.
  intros Hdis Hfirst.
  destruct (connect_cases lib w)
    as [[Hc _]|[(_ & e' & conn & _ & Hw)|(_ & ? & ? & _ & Hr & _)]].
  - congruence.
  - rewrite Hfirst in Hw. simpl in Hw. subst w1.
    rewrite connect_connected by done. repeat split.
    cbn [snd]. rewrite connection_attempts_app. simpl. lia.
  - rewrite Hfirst in Hr. discriminate.
Qed.

(** C8, as the code has it.  On a connected manager, when detaching and
    closing the connection both return, [close()] returns and leaves the
    manager disconnected with the counter of pending queries at zero; when
    detaching raises, or detaching returns and closing raises, [close()]
    raises that exception and leaves the attributes of the manager as they
    were, the connection still attached. *)
Theorem close_connected_cases w conn :
  _conn (self w) = Some conn →
  (∀ e1 e2, on_detach lib conn (engine w) = (e1, None) →
            on_close lib conn e1 = (e2, None) →
     (close lib w).1 = Ok ()
     ∧ connected (self (close lib w).2) = false
     ∧ _pending_queries (self (close lib w).2) = 0%Z)
  ∧ (∀ e1 err, on_detach lib conn (engine w) = (e1, Some err) →
     (close lib w).1 = Raise err
     ∧ self (close lib w).2 = self w)
  ∧ (∀ e1 e2 err, on_detach lib conn (engine w) = (e1, None) →
                  on_close lib conn e1 = (e2, Some err) →
     (close lib w).1 = Raise err
     ∧ self (close lib w).2 = self w).
Proof.
  intros Hconn. repeat split.
  all: try (rewrite (close_released lib w conn e1 e2) by done; done).
  all: try (rewrite (close_detach_raises lib w conn e1 err) by done; done).
  all: rewrite (close_close_raises lib w conn e1 e2 err) by done; done.
Qed.

(** C9. No call of [connect()], [close()] or [execute()] leaves the counter
    of pending queries at a value other than the one it found or zero; the
    counter is therefore zero after every sequence of such calls on a
    manager fresh from [__init__]. *)
Theorem pending_queries_zero name (e : Engine) cs os :
  (∀ o w, _pending_queries (self (run_op lib o w).2) = _pending_queries (self w)
          ∨ _pending_queries (self (run_op lib o w).2) = 0%Z)
  ∧ _pending_queries (self (run_ops lib os (World (__init__ name) e cs))) = 0%Z.
Proof.
  split; [apply run_op_pending_queries|].
  induction os as [|o os IH] using rev_ind; [done|].
  rewrite run_ops_snoc.
  destruct (run_op_pending_queries lib o
              (run_ops lib os (World (__init__ name) e cs))); congruence.
Qed.

(** C10. [execute()] is [connect()]: same outcome, same manager, same
    calls on the library.  Its outcome carries no result set and no call it
    adds submits a statement.  When it returns, the manager is connected: one
    that was connected is left as it was, and for one that was not the engine
    has been asked once and the connection it returned is attached.  When it
    raises, the manager was disconnected and its attributes are unchanged. *)
Theorem execute_is_connect w :
  execute lib w = connect lib w
  ∧ ((execute lib w).1 = Ok () →
     connected (self (execute lib w).2) = true
     ∧ (connected (self w) = true → (execute lib w).2 = w)
     ∧ (connected (self w) = false →
        ∃ e' conn, on_connect lib (engine w) = (e', inl conn)
                   ∧ _conn (self (execute lib w).2) = Some conn
                   ∧ connection_attempts (execute lib w).2
                     = S (connection_attempts w)))
  ∧ (∀ e, (execute lib w).1 = Raise e →
          connected (self w) = false ∧ self (execute lib w).2 = self w)
  ∧ ∃ new, calls (execute lib w).2 = calls w ++ new
           ∧ Forall (λ c, is_conn_execute c = false) new.
Proof.
  split; [done|]. unfold execute.
  destruct (connected (self w)) eqn:Hc.
  { rewrite connect_connected by done. simpl. repeat split; try done.
    exists []. by rewrite app_nil_r. }
  destruct (on_connect lib (engine w)) as [e' [conn|err]] eqn:Hlib.
  - rewrite (connect_accepted lib w e' conn) by done. cbn [fst snd].
    split; [|split; [done|]].
    + intros _. split; [done|]. split; [done|]. intros _.
      exists e', conn. split; [done|]. split; [done|].
      rewrite connection_attempts_app. simpl. lia.
    + eexists. split; [done|]. by repeat constructor.
  - rewrite (connect_refused lib w e' err) by done. cbn [fst snd].
    split; [done|]. split; [done|].
    eexists. split; [done|]. by repeat constructor.
Qed.
End database_claims.

Lemma connect_twice_one_attempt_witness :
  let w1 := (DataBase.connect Examples.accepting Examples.fresh).2 in
  DataBase.connect Examples.accepting w1 = (Ok (), w1)
  ∧ DataBase.connected (DataBase.self w1) = true
  ∧ DataBase.connection_attempts (DataBase.connect Examples.accepting w1).2 = 1.
Proof.
  apply (connect_twice_one_attempt Examples.accepting Examples.fresh
           (DataBase.connect Examples.accepting Examples.fresh).2);
    reflexivity.
Defined.

Lemma execute_is_connect_witness :
  let w := (DataBase.execute Examples.accepting Examples.fresh).2 in
  DataBase.connected (DataBase.self w) = true
  ∧ (DataBase.connected (DataBase.self Examples.fresh) = true →
     w = Examples.fresh)
  ∧ (DataBase.connected (DataBase.self Examples.fresh) = false →
     ∃ e' conn,
       DataBase.on_connect Examples.accepting (DataBase.engine Examples.fresh)
       = (e', inl conn)
       ∧ DataBase._conn (DataBase.self w) = Some conn
       ∧ DataBase.connection_attempts w
         = S (DataBase.connection_attempts Examples.fresh)).
Proof.
  apply (proj1 (proj2 (execute_is_connect Examples.accepting Examples.fresh))).
  reflexivity.
Defined.

(** A request for a connection that is cancelled: [CancelledError] does not
    derive from [Exception], and comes out of [execute()] as it is. *)
Example execute_cancelled :
  DataBase.execute Examples.cancelled Examples.fresh
  = (Raise (ForeignBase "CancelledError"),
     DataBase.World (DataBase.__init__ "db") 0 [DataBase.engine_connect]).
Proof. reflexivity. Qed.

(** C7, as stated, fails: when the engine refuses the connection, the first
    [connect()] raises and leaves the manager disconnected, and the second
    asks the engine again, which makes two attempts; and on a manager that is
    connected already, two calls make none. *)
Lemma connect_twice_refused :
  let '(r1, w1) := DataBase.connect Examples.refusing Examples.fresh in
  let '(r2, w2) := DataBase.connect Examples.refusing w1 in
  let connected_already := (DataBase.connect Examples.accepting Examples.fresh).2 in
  let '(_, w3) := DataBase.connect Examples.accepting connected_already in
  let '(_, w4) := DataBase.connect Examples.accepting w3 in
  r1 = Raise (DataBaseConnectError "OperationalError" false)
  ∧ DataBase.connected (DataBase.self w1) = false
  ∧ r2 = Raise (DataBaseConnectError "OperationalError" false)
  ∧ DataBase.calls w2 = [DataBase.engine_connect; DataBase.engine_connect]
  ∧ DataBase.connection_attempts w2
    = DataBase.connection_attempts Examples.fresh + 2
  ∧ DataBase.connection_attempts w4
    = DataBase.connection_attempts connected_already + 0.
Proof. vm_compute. repeat split. Qed.

Lemma close_connected_cases_witness :
  let w1 := (DataBase.connect Examples.accepting Examples.fresh).2 in
  let w2 := (DataBase.connect Examples.detach_raises Examples.fresh).2 in
  ((DataBase.close Examples.accepting w1).1 = Ok ()
   ∧ DataBase.connected (DataBase.self (DataBase.close Examples.accepting w1).2)
     = false
   ∧ DataBase._pending_queries
       (DataBase.self (DataBase.close Examples.accepting w1).2) = 0%Z)
  ∧ ((DataBase.close Examples.detach_raises w2).1
     = Raise (Foreign "InvalidRequestError")
     ∧ DataBase.self (DataBase.close Examples.detach_raises w2).2
       = DataBase.self w2).
Proof.
  split.
  - apply (proj1 (close_connected_cases Examples.accepting
             (DataBase.connect Examples.accepting Examples.fresh).2 0 eq_refl)
             1 1); reflexivity.
  - apply (proj1 (proj2 (close_connected_cases Examples.detach_raises
             (DataBase.connect Examples.detach_raises Examples.fresh).2 0 eq_refl))
             1 (Foreign "InvalidRequestError")); reflexivity.
Defined.

(** C8, as stated, fails: a manager connects, its connection raises when
    detached, and [close()] lets the exception through before it reaches
    [conn.close()] or the assignment to [_conn]: the manager stays connected,
    the same connection attached and never closed. *)
Lemma close_detach_error_keeps_handle :
  let w1 := (DataBase.connect Examples.detach_raises Examples.fresh).2 in
  let '(r, w2) := DataBase.close Examples.detach_raises w1 in
  DataBase.connected (DataBase.self w1) = true
  ∧ r = Raise (Foreign "InvalidRequestError")
  ∧ DataBase.connected (DataBase.self w2) = true
  ∧ DataBase._conn (DataBase.self w2) = Some 0
  ∧ DataBase.conn_close 0 ∉ DataBase.calls w2.
Proof.
  vm_compute. repeat split.
  intros H. repeat (apply elem_of_cons in H as [H|H]; [discriminate|]).
  by apply elem_of_nil in H.
Qed.

(** * Further properties of the code *)

(** ** Column names of a result set *)

Lemma sorted_eq_iff l1 l2 : sorted l1 = sorted l2 ↔ l1 ≡ₚ l2.
Proof.
  split.
  - intros Heq. by rewrite <- (sorted_Permutation l1), Heq, sorted_Permutation.
  - intros Hp. apply (StronglySorted_unique String.le).
    + apply StronglySorted_merge_sort; apply _.
    + apply StronglySorted_merge_sort; apply _.
    + by rewrite !sorted_Permutation.
Qed.

Section columns.
Context {Any Num : Type}.
Implicit Types (self : Query.t Any Num) (qr : QueryResults.t Any Num).
Implicit Types (keys : list string) (row : list Any).

Lemma elem_of_expected_columns self c :
  c ∈ Query.expected_columns self
  ↔ ∃ m, m ∈ Query.metrics self
         ∧ (c = QueryMetric.name m ∨ c ∈ QueryMetric.labels m).
Proof.
  unfold Query.expected_columns, Query.labels.
  rewrite elem_of_union, !elem_of_list_to_set, list_elem_of_fmap.
  rewrite list_elem_of_In, in_concat. split.
  - intros [(m & -> & Hm)|(ls & Hls & Hc)]; [by eauto|].
    apply list_elem_of_In, list_elem_of_fmap in Hls as (m & -> & Hm).
    apply list_elem_of_In in Hc. eauto.
  - intros (m & Hm & [->|Hc]); [left; eauto|].
    right. exists (QueryMetric.labels m).
    split; apply list_elem_of_In; [|done]. apply list_elem_of_fmap. eauto.
Qed.

(** The columns are the expected names, each once. *)
Lemma columns_Permutation_iff self keys :
  keys ≡ₚ elements (Query.expected_columns self)
  ↔ NoDup keys
    ∧ ∀ c, c ∈ keys ↔ ∃ m, m ∈ Query.metrics self
                          ∧ (c = QueryMetric.name m ∨ c ∈ QueryMetric.labels m).
Proof.
  split.
  - intros Hp. split.
    + rewrite Hp. apply NoDup_elements.
    + intros c. by rewrite Hp, elem_of_elements, elem_of_expected_columns.
  - intros [Hnd Hin]. apply NoDup_Permutation; [done|apply NoDup_elements|].
    intros c. by rewrite Hin, elem_of_elements, elem_of_expected_columns.
Qed.

(** Which of the three ways [results] goes on a result set with rows. *)
Lemma results_shape_cases self qr :
  QueryResults.rows qr ≠ [] →
  (¬ QueryResults.keys qr ≡ₚ elements (Query.expected_columns self)
   ∧ ∃ e, Query.results self qr = Raise e ∧ FATAL_ERRORS e = true)
  ∨ (QueryResults.keys qr ≡ₚ elements (Query.expected_columns self)
     ∧ Query.results self qr
       = (per_row ← mapM (Query.row_results self (QueryResults.keys qr))
                         (QueryResults.rows qr);
          mret (MetricResults.mk (concat per_row) (QueryResults.latency qr)))).
Proof.
  intros Hrows.
  destruct (decide (size (Query.expected_columns self)
                    = length (QueryResults.keys qr))) as [Hlen|Hlen].
  - destruct (decide (sorted (QueryResults.keys qr)
                      = sorted (elements (Query.expected_columns self))))
      as [Heq|Hne].
    + right. split; [by apply sorted_eq_iff|by apply results_checked].
    + left. split; [by rewrite <- sorted_eq_iff|].
      eexists. split; [by apply results_wrong_names|done].
  - left. split.
    + intros Hp. apply Hlen. rewrite Hp. reflexivity.
    + exists (InvalidResultCount (size (Query.expected_columns self))
                                 (length (QueryResults.keys qr))).
      split; [|done]. unfold Query.results.
      destruct (QueryResults.rows qr); [done|].
      rewrite length_expected_keys, length_sorted. by rewrite decide_True.
Qed.

Lemma row_results_not_fatal self keys (rows : list (list Any)) e :
  mapM (Query.row_results self keys) rows = Raise e → ∃ k, e = KeyError k.
Proof.
  intros (r & _ & Hr)%mapM_Raise. apply mapM_Raise in Hr as (m & _ & Hm).
  by eapply metric_result_Raise.
Qed.
End columns.

(** X1. On a result set with rows, [results] raises one of the two fatal
    errors exactly when the columns are not the metric names and label names
    of the query, each once, in some order. *)
Theorem results_fatal_iff {Any Num : Type} (self : Query.t Any Num)
    (qr : QueryResults.t Any Num) :
  QueryResults.rows qr ≠ [] →
  (∃ e, Query.results self qr = Raise e ∧ FATAL_ERRORS e = true)
  ↔ ¬ (NoDup (QueryResults.keys qr)
       ∧ ∀ c, c ∈ QueryResults.keys qr
              ↔ ∃ m, m ∈ Query.metrics self
                     ∧ (c = QueryMetric.name m ∨ c ∈ QueryMetric.labels m)).
Proof.
  intros Hrows. rewrite <- columns_Permutation_iff.
  destruct (results_shape_cases self qr Hrows) as [[Hn He]|[Hp Hr]].
  - by split.
  - split; [|by intros []]. intros (e & He & Hf). rewrite Hr in He.
    destruct (mapM _ _) as [per_row|e'] eqn:Hm; simpl in He; [done|].
    injection He as ->. apply row_results_not_fatal in Hm as [k ->]. done.
Qed.

Lemma results_fatal_iff_witness :
  ∃ e, Query.results Examples.m1_l1
         (QueryResults.mk ["m1"; "m1"] [[Int 1; Int 2]] None) = Raise e
       ∧ FATAL_ERRORS e = true.
Proof.
  apply (results_fatal_iff Examples.m1_l1
           (QueryResults.mk ["m1"; "m1"] [[Int 1; Int 2]] None)).
  - discriminate.
  - intros [Hnd _]. apply NoDup_cons in Hnd as [Hnotin _].
    apply Hnotin. by left.
Defined.

(** ** Rows and the order of columns *)

Lemma mapM_Forall2_ext {A A' B : Type} (f : A → outcome B) (g : A' → outcome B)
    (l : list A) (l' : list A') :
  Forall2 (λ x y, f x = g y) l l' → mapM f l = mapM g l'.
Proof.
  induction 1 as [|x y l l' Hxy _ IH]; [done|].
  simpl. by rewrite Hxy, IH.
Qed.

Lemma mapM_Raise_elem_of {A B : Type} (f : A → outcome B) (l : list A) x e :
  x ∈ l → f x = Raise e → ∃ e', mapM f l = Raise e'.
Proof.
  intros Hx Hf. induction l as [|y l IH]; [by apply elem_of_nil in Hx|].
  simpl. destruct (f y) as [b|e1] eqn:Hy; simpl; [|by eauto].
  apply elem_of_cons in Hx as [->|Hx]; [congruence|].
  destruct (IH Hx) as [e' ->]. simpl. eauto.
Qed.

Section zip_lemmas.
Context {V : Type}.
Implicit Types (keys : list string) (row : list V).

Lemma fst_zip_take keys row : (zip keys row).*1 = take (length row) keys.
Proof.
  transitivity ((zip (take (length row) keys) row).*1).
  - f_equal. symmetry. apply zip_with_take_l.
  - apply fst_zip. rewrite length_take. lia.
Qed.

Lemma NoDup_fst_zip keys row : NoDup keys → NoDup (zip keys row).*1.
Proof.
  intros Hnd. rewrite fst_zip_take. eapply sublist_NoDup; [done|].
  apply sublist_take.
Qed.

Lemma dict_zip_Permutation keys keys' row row' :
  NoDup keys → zip keys row ≡ₚ zip keys' row' →
  dict (zip keys row) = dict (zip keys' row').
Proof.
  intros Hnd Hp. rewrite !dict_list_to_map. apply list_to_map_proper.
  - rewrite fmap_reverse, reverse_Permutation. by apply NoDup_fst_zip.
  - by rewrite !reverse_Permutation.
Qed.

Lemma dict_zip_take keys row :
  dict (zip keys (take (length keys) row)) = dict (zip keys row).
Proof. f_equal. apply zip_with_take_r. Qed.

(** A column beyond the end of the row has no entry in the dict. *)
Lemma dict_zip_lookup_None keys row i c :
  NoDup keys → keys !! i = Some c → length row ≤ i →
  dict (zip keys row) !! c = None.
Proof.
  intros Hnd Hi Hlen. apply not_elem_of_dom. rewrite dom_dict, fst_zip_take.
  rewrite elem_of_list_to_set. intros [j Hj]%list_elem_of_lookup.
  apply lookup_take_Some in Hj as [Hj Hlt].
  assert (i = j) by (by eapply NoDup_lookup). lia.
Qed.
End zip_lemmas.

Section rows.
Context {Any Num : Type}.
Implicit Types (self : Query.t Any Num) (qr : QueryResults.t Any Num).
Implicit Types (keys : list string) (row : list Any).

Lemma row_results_take self keys row :
  Query.row_results self keys (take (length keys) row)
  = Query.row_results self keys row.
Proof. unfold Query.row_results. by rewrite dict_zip_take. Qed.

Lemma row_results_long self keys row :
  keys ≡ₚ elements (Query.expected_columns self) →
  length keys ≤ length row →
  ∃ rs, Query.row_results self keys row = Ok rs.
Proof.
  intros Hp%sorted_eq_iff Hlen. rewrite <- row_results_take.
  destruct (row_results_Ok self keys (take (length keys) row) Hp) as (rs & ? & _).
  { rewrite length_take. lia. }
  eauto.
Qed.

Lemma metric_result_missing (values : gmap string Any) m c :
  c = QueryMetric.name m ∨ c ∈ QueryMetric.labels m →
  values !! c = None →
  ∃ e, Query.metric_result values m = Raise e.
Proof.
  intros Hc Hnone. unfold Query.metric_result.
  destruct (getitem values (QueryMetric.name m)) as [v|e] eqn:Hv; simpl;
    [|by eauto].
  destruct Hc as [->|Hc].
  { unfold getitem in Hv. by rewrite Hnone in Hv. }
  edestruct (mapM_Raise_elem_of
    (λ label, cell ← getitem values label; mret (label, cell))
    (QueryMetric.labels m) c) as [e' ->]; [done| |by simpl; eauto].
  unfold getitem. by rewrite Hnone.
Qed.

Lemma row_results_short self keys row :
  keys ≡ₚ elements (Query.expected_columns self) →
  length row < length keys →
  ∃ e, Query.row_results self keys row = Raise e.
Proof.
  intros Hp Hlen.
  destruct (lookup_lt_is_Some_2 keys (length row) Hlen) as [c Hc].
  assert (NoDup keys) as Hnd by (rewrite Hp; apply NoDup_elements).
  assert (c ∈ Query.expected_columns self) as Hin.
  { apply elem_of_elements. rewrite <- Hp. by eapply list_elem_of_lookup_2. }
  apply elem_of_expected_columns in Hin as (m & Hm & Hcm).
  destruct (metric_result_missing (dict (zip keys row)) m c Hcm) as [e He].
  { by eapply dict_zip_lookup_None. }
  unfold Query.row_results. by eapply mapM_Raise_elem_of.
Qed.
End rows.

(** X2. [results] does not depend on the order of the columns: two result
    sets whose columns are rearrangements of one another, and whose rows pair
    the same cells with the same columns, give the same outcome. *)
Theorem results_column_order {Any Num : Type} (self : Query.t Any Num)
    (keys keys' : list string) (rows rows' : list (list Any))
    (latency : option Num) :
  keys ≡ₚ keys' →
  Forall2 (λ row row', zip keys row ≡ₚ zip keys' row') rows rows' →
  Query.results self (QueryResults.mk keys rows latency)
  = Query.results self (QueryResults.mk keys' rows' latency).
Proof.
  intros Hkeys Hrows.
  destruct Hrows as [|row row' rows rows' Hrow Hrows]; [done|].
  set (qr := QueryResults.mk keys (row :: rows) latency).
  set (qr' := QueryResults.mk keys' (row' :: rows') latency).
  destruct (results_shape_cases self qr) as [[Hn _]|[Hp Hr]]; [done|..].
  - (* both fail the same shape check *)
    unfold Query.results; simpl.
    rewrite (proj2 (sorted_eq_iff keys keys') Hkeys).
    repeat case_decide; [done..|].
    destruct Hn. simpl. rewrite Hkeys. apply sorted_eq_iff.
    by destruct (decide (sorted keys'
                         = sorted (elements (Query.expected_columns self)))).
  - destruct (results_shape_cases self qr') as [[Hn _]|[_ Hr']]; [done|..].
    { destruct Hn. simpl. by rewrite <- Hkeys. }
    rewrite Hr, Hr'. subst qr qr'.
    cbn [QueryResults.keys QueryResults.rows QueryResults.latency] in *.
    assert (NoDup keys) as Hnd by (rewrite Hp; apply NoDup_elements).
    rewrite (mapM_Forall2_ext (Query.row_results self keys)
               (Query.row_results self keys') (row :: rows) (row' :: rows'));
      [done|].
    constructor.
    + unfold Query.row_results.
      by rewrite (dict_zip_Permutation keys keys' row row').
    + eapply Forall2_impl; [exact Hrows|]. intros r r' Hr0.
      unfold Query.row_results.
      by rewrite (dict_zip_Permutation keys keys' r r').
Qed.

Lemma results_column_order_witness :
  Query.results Examples.m1_l1
    (QueryResults.mk ["m1"; "l1"] [[Int 42; Str "a"]] Examples.latency)
  = Query.results Examples.m1_l1
      (QueryResults.mk ["l1"; "m1"] [[Str "a"; Int 42]] Examples.latency).
Proof.
  apply (results_column_order Examples.m1_l1 ["m1"; "l1"] ["l1"; "m1"]
           [[Int 42; Str "a"]] [[Str "a"; Int 42]] Examples.latency).
  - apply perm_swap.
  - constructor; [apply perm_swap|constructor].
Defined.

(** X3. On a result set with rows whose columns pass both shape checks,
    [results] raises [KeyError] exactly when some row has fewer cells than
    there are columns; rows with cells to spare are accepted. *)
Theorem results_KeyError_iff {Any Num : Type} (self : Query.t Any Num)
    (qr : QueryResults.t Any Num) :
  QueryResults.rows qr ≠ [] →
  sorted (QueryResults.keys qr) = sorted (elements (Query.expected_columns self)) →
  (∃ k, Query.results self qr = Raise (KeyError k))
  ↔ Exists (λ row, length row < length (QueryResults.keys qr))
           (QueryResults.rows qr).
Proof.
  intros Hrows Hsorted. rewrite results_checked by done.
  apply sorted_eq_iff in Hsorted as Hp. split.
  - intros [k Hk].
    destruct (decide (Exists (λ row, length row < length (QueryResults.keys qr))
                             (QueryResults.rows qr))) as [|Hnone]; [done|].
    destruct (mapM_Ok_Forall2 (Query.row_results self (QueryResults.keys qr))
                (λ _ _, True) (QueryResults.rows qr)) as (per_row & Hper & _).
    { apply Forall_forall. intros row Hrow.
      destruct (row_results_long self (QueryResults.keys qr) row Hp) as [rs ->];
        [|by eauto].
      destruct (decide (length (QueryResults.keys qr) ≤ length row)); [done|].
      destruct Hnone. apply Exists_exists. exists row. split; [done|lia]. }
    by rewrite Hper in Hk.
  - intros (row & Hrow & Hlen)%Exists_exists.
    destruct (row_results_short self (QueryResults.keys qr) row Hp Hlen) as [e He].
    destruct (mapM_Raise_elem_of _ _ row e Hrow He) as [e' He'].
    rewrite He'. simpl.
    apply row_results_not_fatal in He' as [k ->]. eauto.
Qed.

Lemma results_KeyError_iff_witness :
  ∃ k, Query.results Examples.m1_l1
         (QueryResults.mk ["m1"; "l1"] [[Int 42; Str "a"]; [Int 43]] None)
       = Raise (KeyError k).
Proof.
  apply (results_KeyError_iff Examples.m1_l1
           (QueryResults.mk ["m1"; "l1"] [[Int 42; Str "a"]; [Int 43]] None)).
  - discriminate.
  - vm_compute. reflexivity.
  - apply Exists_cons_tl, Exists_cons_hd. simpl. lia.
Defined.

(** ** Construction of a [Query] *)

Section init.
Context {Any Num : Type}.
Variable compile_params : string → gset string.
Variable croniter_is_valid : string → bool.

Lemma check_schedule_Ok_iff (self : Query.t Any Num) :
  Query._check_schedule croniter_is_valid self = Ok ()
  ↔ ¬ (truthy_int (Query.interval self) = true
       ∧ truthy_str (Query.schedule self) = true)
    ∧ ∀ s, Query.schedule self = Some s → s ≠ EmptyString →
           croniter_is_valid s = true.
Proof.
  unfold Query._check_schedule.
  destruct (Query.schedule self) as [s|]; simpl.
  - destruct (truthy_int (Query.interval self)) eqn:Hi,
      (negb (String.eqb s EmptyString)) eqn:Hs; simpl.
    + split; [done|]. intros [Hn _]. by destruct Hn.
    + split; [|done]. intros _. split; [by intros []|].
      intros ? [= <-] Hne%truthy_str_Some. simpl in Hne. congruence.
    + destruct (croniter_is_valid s) eqn:Hv; simpl.
      * split; [|done]. intros _. split; [by intros []|].
        by intros ? [= <-] _.
      * split; [done|]. intros [_ H].
        apply negb_true_iff, String.eqb_neq in Hs.
        specialize (H s eq_refl Hs). congruence.
    + split; [|done]. intros _. split; [by intros []|].
      intros ? [= <-] Hne%truthy_str_Some. simpl in Hne. congruence.
  - rewrite andb_false_r. split; [|done]. intros _. split; [by intros []|done].
Qed.

(** X4. [__init__] returns a query exactly when the interval and the
    schedule are not both truthy, a non-empty schedule is a valid cron
    expression, and the names of the parameters are the placeholders of the
    SQL text; the query then holds the arguments, with no parameters as the
    empty dict. *)
Theorem init_Ok_iff name include_databases exclude_databases metrics sql
    (parameters : option (gmap string Any)) (timeout : option Num)
    interval schedule (self : Query.t Any Num) :
  Query.__init__ compile_params croniter_is_valid name include_databases
    exclude_databases metrics sql parameters timeout interval schedule
  = Ok self
  ↔ self = Query.mk name include_databases exclude_databases metrics sql
                    (default ∅ parameters) timeout interval schedule
    ∧ ¬ (truthy_int interval = true ∧ truthy_str schedule = true)
    ∧ (∀ s, schedule = Some s → s ≠ EmptyString → croniter_is_valid s = true)
    ∧ dom (default ∅ parameters) = compile_params sql.
Proof.
  unfold Query.__init__.
  set (q := Query.mk name include_databases exclude_databases metrics sql
                     (default ∅ parameters) timeout interval schedule).
  pose proof (check_schedule_Ok_iff q) as Hs.
  pose proof (check_query_parameters_iff compile_params q) as Hp.
  simpl in Hs, Hp.
  destruct (Query._check_schedule croniter_is_valid q) as [[]|e]; simpl.
  - destruct (Query._check_query_parameters compile_params q) as [[]|e]; simpl.
    + split.
      * intros [= <-]. split; [done|]. split; [by apply Hs|].
        split; [by apply Hs|by apply Hp].
      * by intros (-> & _).
    + split; [done|]. intros (_ & _ & _ & H). by apply Hp in H.
  - split; [done|]. intros (_ & H1 & H2 & _).
    by assert (Raise e = Ok ()) by (by apply Hs).
Qed.

(** X5. An error of the schedule check is the error of the construction,
    whatever the parameters are; and the construction raises nothing but the
    two schedule errors and the parameter error, each with the name of the
    query. *)
Theorem init_Raise_cases name include_databases exclude_databases metrics sql
    (parameters : option (gmap string Any)) (timeout : option Num)
    interval schedule :
  let self := Query.mk name include_databases exclude_databases metrics sql
                       (default ∅ parameters) timeout interval schedule in
  let new := Query.__init__ compile_params croniter_is_valid name
               include_databases exclude_databases metrics sql parameters
               timeout interval schedule in
  (∀ e, Query._check_schedule croniter_is_valid self = Raise e → new = Raise e)
  ∧ (∀ e, new = Raise e →
       e = InvalidQuerySchedule name "both interval and schedule specified"
       ∨ e = InvalidQuerySchedule name "invalid schedule format"
       ∨ e = InvalidQueryParameters name).
Proof.
  intros self new. subst new. unfold Query.__init__. fold self. split.
  - by intros e ->.
  - intros e. unfold Query._check_schedule, Query._check_query_parameters.
    simpl. repeat case_match; simpl; intros [= <-]; auto.
Qed.

(** X6. A query that [__init__] returns runs periodically exactly when one
    of its interval and schedule is truthy, and then the other is not. *)
Theorem init_check_periodic name include_databases exclude_databases metrics sql
    (parameters : option (gmap string Any)) (timeout : option Num)
    interval schedule (self : Query.t Any Num) :
  Query.__init__ compile_params croniter_is_valid name include_databases
    exclude_databases metrics sql parameters timeout interval schedule
  = Ok self →
  Query.check_periodic self
  = xorb (truthy_int (Query.interval self)) (truthy_str (Query.schedule self)).
Proof.
  unfold Query.__init__.
  set (q := Query.mk name include_databases exclude_databases metrics sql
                     (default ∅ parameters) timeout interval schedule).
  destruct (Query._check_schedule croniter_is_valid q) as [[]|e] eqn:Hs;
    simpl; [|done].
  destruct (Query._check_query_parameters compile_params q) as [[]|e];
    simpl; [|done].
  intros [= <-]. apply check_schedule_Ok_iff in Hs as [Hn _].
  unfold Query.check_periodic.
  destruct (truthy_int (Query.interval q)), (truthy_str (Query.schedule q));
    try done. by destruct Hn.
Qed.
End init.

Lemma init_Raise_cases_witness :
  Query.__init__ Examples.compile_params Examples.croniter_is_valid
    "q" (inr ["db"]) [] [QueryMetric.mk "m1" ["l1"]] "SELECT 1"
    (Some ({["low" := Int 5]} : gmap string cell)) (@None num)
    (Some 60%Z) (Some "every day")
  = Raise (InvalidQuerySchedule "q" "both interval and schedule specified").
Proof.
  apply (proj1 (init_Raise_cases Examples.compile_params
                  Examples.croniter_is_valid
                  "q" (inr ["db"]) [] [QueryMetric.mk "m1" ["l1"]] "SELECT 1"
                  (Some ({["low" := Int 5]} : gmap string cell)) (@None num)
                  (Some 60%Z) (Some "every day"))).
  reflexivity.
Defined.

Lemma init_check_periodic_witness :
  Query.check_periodic
    (Examples.query "SELECT 1" ∅ None (Some "0 3 * * 1"))
  = xorb false true.
Proof.
  exact (init_check_periodic Examples.compile_params Examples.croniter_is_valid
           "q" (inr ["db"]) [] [QueryMetric.mk "m1" ["l1"]] "SELECT 1"
           (@None (gmap string cell)) (@None num) None (Some "0 3 * * 1")
           (Examples.query "SELECT 1" ∅ None (Some "0 3 * * 1")) eq_refl).
Defined.

Lemma init_Ok_iff_witness :
  Query.__init__ Examples.compile_params Examples.croniter_is_valid
    "q" (inr ["db"]) [] [QueryMetric.mk "m1" ["l1"]]
    "SELECT x FROM t WHERE y > :low"
    (Some ({["low" := Int 5]} : gmap string cell)) (@None num)
    None (Some "0 3 * * 1")
  = Ok (Examples.query "SELECT x FROM t WHERE y > :low" {["low" := Int 5]}
                       None (Some "0 3 * * 1")).
Proof.
  apply (init_Ok_iff Examples.compile_params Examples.croniter_is_valid
           "q" (inr ["db"]) [] [QueryMetric.mk "m1" ["l1"]]
           "SELECT x FROM t WHERE y > :low"
           (Some ({["low" := Int 5]} : gmap string cell)) (@None num)
           None (Some "0 3 * * 1")).
  split; [reflexivity|]. split; [by intros []|]. split.
  - by intros s [= <-] _.
  - vm_compute. reflexivity.
Defined.

(** ** Life cycle of a [DataBase] *)

Section closes_follow_detach_lemmas.
Context {Conn : Type}.
Implicit Types (cs new : list (DataBase.call Conn)).

Lemma closes_follow_detach_app cs new :
  closes_follow_detach cs → closes_follow_detach new →
  closes_follow_detach (cs ++ new).
Proof.
  intros Hcs Hnew i conn [Hi|[Hlen Hi]]%lookup_app_Some.
  - destruct (Hcs i conn Hi) as (j & -> & Hj). exists j. split; [done|].
    by apply lookup_app_l_Some.
  - destruct (Hnew _ conn Hi) as (j & Hij & Hj).
    exists (length cs + j). split; [lia|].
    rewrite lookup_app_r by lia. by replace (length cs + j - length cs) with j by lia.
Qed.

Lemma closes_follow_detach_nil : closes_follow_detach (@nil (DataBase.call Conn)).
Proof. by intros i conn Hi. Qed.
End closes_follow_detach_lemmas.

Section database_extras.
Context {Conn Engine : Type}.
Variable lib : DataBase.library Conn Engine.
Implicit Types (w : DataBase.world Conn Engine).
Import DataBase.

Ltac check_shape :=
  let i := fresh "i" in
  intros i ? ?;
  do 5 (try (destruct i as [|i]; simplify_eq/=; try done)).

(** The calls one operation adds to the list. *)
Lemma run_op_calls o w :
  ∃ new, calls (run_op lib o w).2 = calls w ++ new
         ∧ closes_follow_detach new
         ∧ Forall (λ c, is_conn_execute c = false) new.
Proof.
  assert (∀ cs : list (call Conn),
            (∀ i conn, cs !! i = Some (conn_close conn) → i = 1
                       ∧ cs !! 0 = Some (sync_detach conn)) →
            closes_follow_detach cs) as Hshape.
  { intros cs H i conn Hi. destruct (H i conn Hi) as [-> H0]. eauto. }
  destruct o; simpl; unfold execute.
  1,3: destruct (connect_cases lib w)
    as [[_ ->]|[(_ & ? & ? & _ & ->)|(_ & ? & ? & _ & _ & ->)]]; simpl;
    [exists []; rewrite app_nil_r; split; [done|]; split;
       [apply closes_follow_detach_nil|constructor]
    |eexists; split; [done|]; split;
       [apply Hshape; by check_shape|by repeat constructor]..].
  destruct (_conn (self w)) as [conn|] eqn:Hconn.
  - destruct (on_detach lib conn (engine w)) as [e1 [err|]] eqn:H1.
    { rewrite (close_detach_raises lib w conn e1 err) by done. simpl.
      eexists. split; [done|]. split; [|by repeat constructor].
      apply Hshape; by check_shape. }
    destruct (on_close lib conn e1) as [e2 [err|]] eqn:H2.
    { rewrite (close_close_raises lib w conn e1 e2 err) by done. simpl.
      eexists. split; [done|]. split; [|by repeat constructor].
      apply Hshape; by check_shape. }
    rewrite (close_released lib w conn e1 e2) by done. simpl.
    eexists. split; [done|]. split; [|by repeat constructor].
    apply Hshape; by check_shape.
  - rewrite close_disconnected by done. exists []. rewrite app_nil_r.
    split; [done|]. split; [apply closes_follow_detach_nil|constructor].
Qed.

(** X7. When [close()] returns, the manager is disconnected, and a second
    [close()] returns too, without a call on the library or any change. *)
Theorem close_twice w :
  (close lib w).1 = Ok () →
  connected (self (close lib w).2) = false
  ∧ close lib (close lib w).2 = (Ok (), (close lib w).2).
Proof.
  intros Hok.
  assert (_conn (self (close lib w).2) = None) as Hnone.
  { destruct (close_cases lib w)
      as [[Hn ->]|[(? & ? & ? & _ & _ & ->)|(? & ? & ? & ? & _ & Hr & _)]];
      [done|done|congruence]. }
  split; [|by apply close_disconnected].
  unfold connected. by rewrite Hnone.
Qed.


(** X9. On a disconnected manager with no pending query, a [connect()] and
    a [close()] that both return leave the attributes of the manager as they
    were. *)
Theorem connect_close_round_trip w :
  connected (self w) = false →
  _pending_queries (self w) = 0%Z →
  (connect lib w).1 = Ok () →
  (close lib (connect lib w).2).1 = Ok () →
  self (close lib (connect lib w).2).2 = self w.
Proof.
  intros Hdis Hpending Hconnect Hclose.
  destruct (connect_cases lib w)
    as [[Hc _]|[(_ & e' & conn & _ & Hw)|(_ & ? & ? & _ & Hr & _)]];
    [congruence| |congruence].
  rewrite Hw in Hclose |- *.
  destruct (close_cases lib (World (mk (config_name (self w)) (Some conn)
                                       (_pending_queries (self w))) e'
                                   (calls w ++ [engine_connect;
                                      logger_debug (connected_msg (self w))])))
    as [[Hn _]|[(? & ? & ? & _ & _ & ->)|(? & ? & ? & ? & _ & Hr & _)]];
    [done| |congruence].
  simpl. destruct (self w) as [name c p]. simpl in *.
  unfold connected in Hdis. simpl in Hdis. destruct c; [done|]. by subst.
Qed.

(** X10. Whatever the library answers, no sequence of [connect()],
    [close()] and [execute()] submits a statement, and every [conn.close()] it
    makes comes right after the [detach()] of the same connection. *)
Theorem run_ops_calls os w :
  closes_follow_detach (calls w) →
  Forall (λ c, is_conn_execute c = false) (calls w) →
  closes_follow_detach (calls (run_ops lib os w))
  ∧ Forall (λ c, is_conn_execute c = false) (calls (run_ops lib os w)).
Proof.
  intros Hcs Hex. induction os as [|o os [IH1 IH2]] using rev_ind; [done|].
  rewrite run_ops_snoc.
  destruct (run_op_calls o (run_ops lib os w)) as (new & -> & Hnew1 & Hnew2).
  split; [by apply closes_follow_detach_app|by apply Forall_app].
Qed.

(** X11. When [__aenter__] returns, what it returns is the manager as it
    then is, and it is connected; when it raises, [connect()] has raised the
    same exception. *)
Theorem aenter_connected w :
  (∀ db, (__aenter__ lib w).1 = Ok db →
         db = self (__aenter__ lib w).2 ∧ connected db = true)
  ∧ (∀ e, (__aenter__ lib w).1 = Raise e → (connect lib w).1 = Raise e).
Proof.
  unfold __aenter__, bind, get_self.
  destruct (connect_cases lib w)
    as [[Hc ->]|[(_ & ? & ? & H1 & H2)|(_ & ? & ? & _ & H1 & H2)]].
  - split; [|done]. by intros db [= <-].
  - destruct (connect lib w) as [[[]|] w']; simpl in *; [|done].
    subst w'. split; [|done]. by intros db [= <-].
  - destruct (connect lib w) as [[[]|e'] w']; simpl in *; [done|].
    split; [done|]. by intros e [= <-].
Qed.
End database_extras.

Lemma close_twice_witness :
  let w := (DataBase.connect Examples.accepting Examples.fresh).2 in
  DataBase.connected (DataBase.self (DataBase.close Examples.accepting w).2)
  = false
  ∧ DataBase.close Examples.accepting (DataBase.close Examples.accepting w).2
    = (Ok (), (DataBase.close Examples.accepting w).2).
Proof.
  apply (close_twice Examples.accepting
           (DataBase.connect Examples.accepting Examples.fresh).2).
  reflexivity.
Defined.


Lemma connect_close_round_trip_witness :
  DataBase.self
    (DataBase.close Examples.accepting
       (DataBase.connect Examples.accepting Examples.fresh).2).2
  = DataBase.self Examples.fresh.
Proof.
  apply (connect_close_round_trip Examples.accepting Examples.fresh);
    reflexivity.
Defined.

Lemma run_ops_calls_witness :
  let w := DataBase.run_ops Examples.accepting
             [DataBase.Execute; DataBase.Close; DataBase.Close; DataBase.Connect]
             Examples.fresh in
  closes_follow_detach (DataBase.calls w)
  ∧ Forall (λ c, DataBase.is_conn_execute c = false) (DataBase.calls w).
Proof.
  apply (run_ops_calls Examples.accepting
           [DataBase.Execute; DataBase.Close; DataBase.Close; DataBase.Connect]
           Examples.fresh).
  - apply closes_follow_detach_nil.
  - constructor.
Defined.

Lemma aenter_connected_witness :
  let db := DataBase.self (DataBase.connect Examples.accepting Examples.fresh).2 in
  db = DataBase.self (DataBase.__aenter__ Examples.accepting Examples.fresh).2
  ∧ DataBase.connected db = true.
Proof.
  apply (proj1 (aenter_connected Examples.accepting Examples.fresh)).
  reflexivity.
Defined.
